(** * Customer service (main.py): a shallow embedding and its properties

    The service is one Python module, [main.py]: a pydantic record
    [Customer], a connection factory [get_db_connection] and two FastAPI
    handlers, [create_customer] (POST /customers/) and [get_customers]
    (GET /customers/).  Everything the handlers do goes through the
    database driver, so the embedding is a state-and-exception monad over a
    [World] that holds the process environment, the [customers] relation,
    the driver's open connections and the record of driver calls. *)

From Stdlib Require Import Ascii.
From stdpp Require Import gmap strings list.

Local Open Scope string_scope.
Local Open Scope list_scope.

Set Warnings "-register-all".

(** ** Values *)

(** A column value as the driver hands it to Python: [None] or a [str]. *)
Inductive SqlVal : Type :=
| SqlNull
| SqlText (s : string).

#[global] Instance SqlVal_eq_dec : EqDecision SqlVal.
Proof. solve_decision. Defined.

(** A row of [SELECT name, email]: [row[0]] and [row[1]].  The same shape
    stands for the stored rows of [customers], of which the service only
    ever touches these two columns. *)
Record Row : Type := mkRow { col0 : SqlVal; col1 : SqlVal }.

#[global] Instance Row_eq_dec : EqDecision Row.
Proof. solve_decision. Defined.

(** A Python dict with [str] keys, in insertion order. *)
Definition dict (V : Type) : Type := list (string * V).

Fixpoint dict_get {V : Type} (k : string) (d : dict V) : option V :=
  match d with
  | [] => None
  | (k', v) :: d' => if String.eqb k k' then Some v else dict_get k d'
  end.

(** A decoded JSON request body.  Numbers are kept as integers: the
    validator treats every number alike. *)
Inductive Json : Type :=
| JNull
| JBool (b : bool)
| JNumber (n : Z)
| JString (s : string)
| JArray (l : list Json)
| JObject (d : list (string * Json)).

(** ** The Customer model

    [class Customer(BaseModel): name: str; email: str] *)
Record Customer : Type := mkCustomer { name : string; email : string }.

(** One entry of a pydantic validation error: where, and which kind. *)
Inductive ErrorType : Type :=
| model_type     (* the body is not an object *)
| missing        (* a required field is absent *)
| string_type.   (* the field's value is not a string *)

Record ErrorDetail : Type := mkDetail { loc : list string; type_ : ErrorType }.

(** Validation of one [str] field of an object body: the field has to be
    there and to be a JSON string; numbers and the rest are not turned
    into strings. *)
Definition validate_str (field : string) (d : dict Json)
  : list ErrorDetail + string :=
  match dict_get field d with
  | None => inl [mkDetail ["body"; field] missing]
  | Some (JString s) => inr s
  | Some _ => inl [mkDetail ["body"; field] string_type]
  end.

(** [Customer.model_validate]: both fields are checked and the errors of
    both are reported; no other key of the body is looked at (pydantic's
    default for unknown keys is to ignore them). *)
Definition Customer_validate (payload : Json) : list ErrorDetail + Customer :=
  match payload with
  | JObject d =>
      match validate_str "name" d, validate_str "email" d with
      | inr n, inr e => inr (mkCustomer n e)
      | inl en, inr _ => inl en
      | inr _, inl ee => inl ee
      | inl en, inl ee => inl (en ++ ee)
      end
  | _ => inl [mkDetail ["body"] model_type]
  end.

(** ** The world: environment, database and driver *)

(** A [pyodbc.Error]: SQLSTATE and message. *)
Record Error : Type := mkError { sqlstate : string; message : string }.

#[global] Instance Error_eq_dec : EqDecision Error.
Proof. solve_decision. Defined.

(** A connection is a handle into the driver's table of open sessions.
    A session leaves that table by a [close] call only: what Python does
    to a connection object that nothing refers to any more is not part of
    this model, so the table says which connections no call has closed,
    not which ones the server still holds. *)
Definition Connection : Type := nat.

(** A cursor belongs to a connection and holds the result set of the last
    query, if there is one. *)
Record Cursor : Type := mkCursor { cur_conn : Connection; cur_rows : option (list Row) }.

(** The calls the program makes into the driver. *)
Inductive Event : Type :=
| EvConnect (conn_str : string)
| EvCursor (c : Connection)
| EvExecute (c : Connection) (sql : string) (params : list SqlVal)
| EvFetchall (c : Connection)
| EvCommit (c : Connection)
| EvClose (c : Connection).

#[global] Instance Event_eq_dec : EqDecision Event.
Proof. solve_decision. Defined.

Record World : Type := mkWorld {
  environ : gmap string string;      (* os.environ *)
  customers : list Row;              (* committed rows, in scan order *)
  sessions : gmap nat (list Row);    (* open connections and the rows each
                                        has inserted but not committed *)
  fresh : nat;                       (* the next connection handle *)
  faults : list (option Error);      (* what the server answers to the
                                        coming driver calls: an error, or
                                        [None] to let the call through *)
  trace : list Event                 (* driver calls so far, oldest first *)
}.

Definition set_customers (t : list Row) (w : World) : World :=
  mkWorld (environ w) t (sessions w) (fresh w) (faults w) (trace w).
Definition set_sessions (s : gmap nat (list Row)) (w : World) : World :=
  mkWorld (environ w) (customers w) s (fresh w) (faults w) (trace w).
Definition set_fresh (n : nat) (w : World) : World :=
  mkWorld (environ w) (customers w) (sessions w) n (faults w) (trace w).
Definition set_faults (f : list (option Error)) (w : World) : World :=
  mkWorld (environ w) (customers w) (sessions w) (fresh w) f (trace w).
Definition set_trace (t : list Event) (w : World) : World :=
  mkWorld (environ w) (customers w) (sessions w) (fresh w) (faults w) t.

(** ** Python computations: state and exceptions *)

Definition Py (A : Type) : Type := World -> (Error + A) * World.

#[global] Instance Py_ret : MRet Py := fun A x w => (inr x, w).

#[global] Instance Py_bind : MBind Py := fun A B f m w =>
  match m w with
  | (inl e, w') => (inl e, w')
  | (inr x, w') => f x w'
  end.

Definition raise {A : Type} (e : Error) : Py A := fun w => (inl e, w).
Definition gets {A : Type} (f : World -> A) : Py A := fun w => (inr (f w), w).
Definition modify (f : World -> World) : Py unit := fun w => (inr tt, f w).

(** ** The driver (pyodbc) *)

(** Every driver call is recorded, then answered by the server: the next
    entry of [faults] decides whether it raises. *)
Definition call (ev : Event) : Py unit := fun w =>
  let w1 := set_faults (tail (faults w)) (set_trace (trace w ++ [ev]) w) in
  match faults w with
  | Some e :: _ => (inl e, w1)
  | _ => (inr tt, w1)
  end.

Definition closed_connection : Error :=
  mkError "HY000" "Attempt to use a closed connection.".

(** The uncommitted rows of an open connection. *)
Definition pending (c : Connection) : Py (list Row) := fun w =>
  match sessions w !! c with
  | Some rows => (inr rows, w)
  | None => (inl closed_connection, w)
  end.

(** [pyodbc.connect(conn_str)] *)
Definition pyodbc_connect (conn_str : string) : Py Connection :=
  _ ← call (EvConnect conn_str);
  c ← gets fresh;
  _ ← modify (fun w => set_fresh (S c) (set_sessions (<[c := []]> (sessions w)) w));
  mret c.

(** [conn.cursor()] *)
Definition conn_cursor (c : Connection) : Py Cursor :=
  _ ← call (EvCursor c);
  _ ← pending c;
  mret (mkCursor c None).

Definition INSERT_SQL : string := "INSERT INTO customers (name, email) VALUES (?, ?)".
Definition SELECT_SQL : string := "SELECT name, email FROM customers".

(** [cursor.execute(sql, params)]: the two statements of the service.  An
    insert joins the connection's open transaction; a select reads the
    committed rows and the connection's own uncommitted ones. *)
Definition cursor_execute (cur : Cursor) (sql : string) (params : list SqlVal)
  : Py Cursor :=
  let c := cur_conn cur in
  _ ← call (EvExecute c sql params);
  rows ← pending c;
  if String.eqb sql INSERT_SQL then
    match params with
    | [n; e] =>
        _ ← modify (fun w =>
              set_sessions (<[c := rows ++ [mkRow n e]]> (sessions w)) w);
        mret (mkCursor c None)
    | _ => raise (mkError "07002" "The SQL contains 2 parameter markers.")
    end
  else if String.eqb sql SELECT_SQL then
    match params with
    | [] =>
        table ← gets customers;
        mret (mkCursor c (Some (table ++ rows)))
    | _ => raise (mkError "07002" "The SQL contains 0 parameter markers.")
    end
  else raise (mkError "42000" "Syntax error or access violation").

(** [cursor.fetchall()] *)
Definition cursor_fetchall (cur : Cursor) : Py (list Row) :=
  _ ← call (EvFetchall (cur_conn cur));
  _ ← pending (cur_conn cur);
  match cur_rows cur with
  | Some rows => mret rows
  | None => raise (mkError "HY000" "No results.  Previous SQL was not a query.")
  end.

(** [conn.commit()]: the connection's uncommitted rows join the table. *)
Definition conn_commit (c : Connection) : Py unit :=
  _ ← call (EvCommit c);
  rows ← pending c;
  modify (fun w =>
    set_sessions (<[c := []]> (sessions w))
      (set_customers (customers w ++ rows) w)).

(** [conn.close()]: the connection leaves the table of open sessions and
    its uncommitted rows are dropped. *)
Definition conn_close (c : Connection) : Py unit :=
  _ ← call (EvClose c);
  _ ← pending c;
  modify (fun w => set_sessions (delete c (sessions w)) w).

(** ** main.py *)

(** [os.getenv(key, default)] *)
Definition os_getenv (key dflt : string) : Py string :=
  gets (fun w => default dflt (environ w !! key)).

Definition get_db_connection : Py Connection :=
  server ← os_getenv "SQL_SERVER" "cms-sql-server2025.database.windows.net";
  database ← os_getenv "SQL_DB" "cms-db";
  username ← os_getenv "SQL_USER" "sqladmin";
  password ← os_getenv "SQL_PASSWORD" "P@ssw0rd123!";
  let driver := "{ODBC Driver 18 for SQL Server}" in
  let conn_str :=
    "DRIVER=" +:+ driver +:+ ";" +:+
    "SERVER=" +:+ server +:+ ";" +:+
    "DATABASE=" +:+ database +:+ ";" +:+
    "UID=" +:+ username +:+ ";" +:+
    "PWD=" +:+ password +:+ ";" +:+
    "Encrypt=yes;TrustServerCertificate=no;Connection Timeout=30;" in
  pyodbc_connect conn_str.

Definition create_customer (customer : Customer) : Py (dict string) :=
  conn ← get_db_connection;
  cursor ← conn_cursor conn;
  _ ← cursor_execute cursor
        "INSERT INTO customers (name, email) VALUES (?, ?)"
        [SqlText (name customer); SqlText (email customer)];
  _ ← conn_commit conn;
  mret [("message", "Customer created"); ("name", name customer)].

(** [cursor.execute] changes the cursor object in place; here the changed
    cursor is the one passed on to [fetchall]. *)
Definition get_customers : Py (list (dict SqlVal)) :=
  conn ← get_db_connection;
  cursor ← conn_cursor conn;
  cursor ← cursor_execute cursor "SELECT name, email FROM customers" [];
  rows ← cursor_fetchall cursor;
  mret (map (fun row => [("name", col0 row); ("email", col1 row)]) rows).

(** ** The HTTP layer (FastAPI)

    A body that fails validation never reaches the handler (422); an
    exception that leaves the handler becomes a 500; a returned value is
    the body of a 200.  The [exc] of a 500 is the exception that reached
    the layer, not what the client is sent: main.py installs no exception
    handler, so the client receives the framework's fixed text. *)
Inductive Response (A : Type) : Type :=
| Http200 (body : A)
| Http422 (detail : list ErrorDetail)
| Http500 (exc : Error).

Arguments Http200 {A} body.
Arguments Http422 {A} detail.
Arguments Http500 {A} exc.

Definition respond {A : Type} (handler : Py A) (w : World) : Response A * World :=
  match handler w with
  | (inr body, w') => (Http200 body, w')
  | (inl e, w') => (Http500 e, w')
  end.

(** [@app.post("/customers/")] *)
Definition POST_customers (payload : Json) (w : World)
  : Response (dict string) * World :=
  match Customer_validate payload with
  | inl detail => (Http422 detail, w)
  | inr customer => respond (create_customer customer) w
  end.

(** [@app.get("/customers/")] *)
Definition GET_customers (w : World) : Response (list (dict SqlVal)) * World :=
  respond get_customers w.

(** * Vocabulary of the properties *)

(** ** The server's answers *)

(** What the server answers to the [k]-th of the coming driver calls:
    [Some e] when that call raises [e], [None] when it goes through. *)
Fixpoint answer (k : nat) (fs : list (option Error)) : option Error :=
  match k with
  | O => hd None fs
  | S k' => answer k' (tail fs)
  end.

(** The server lets the next [n] driver calls through. *)
Fixpoint quiet (n : nat) (fs : list (option Error)) : bool :=
  match n with
  | O => true
  | S n' =>
      match hd None fs with
      | None => quiet n' (tail fs)
      | Some _ => false
      end
  end.

(** The first of the coming driver calls to raise is the [k]-th, with [e]. *)
Definition fails_at (k : nat) (e : Error) (fs : list (option Error)) : Prop :=
  quiet k fs = true /\ answer k fs = Some e.

(** ** What main.py builds *)

(** The connection string [get_db_connection] builds in environment [env]. *)
Definition conn_string (env : gmap string string) : string :=
  "DRIVER={ODBC Driver 18 for SQL Server};" +:+
  "SERVER=" +:+ default "cms-sql-server2025.database.windows.net" (env !! "SQL_SERVER") +:+ ";" +:+
  "DATABASE=" +:+ default "cms-db" (env !! "SQL_DB") +:+ ";" +:+
  "UID=" +:+ default "sqladmin" (env !! "SQL_USER") +:+ ";" +:+
  "PWD=" +:+ default "P@ssw0rd123!" (env !! "SQL_PASSWORD") +:+ ";" +:+
  "Encrypt=yes;TrustServerCertificate=no;Connection Timeout=30;".

(** The row [create_customer] inserts and the value it returns. *)
Definition row_of (c : Customer) : Row := mkRow (SqlText (name c)) (SqlText (email c)).
Definition confirmation (c : Customer) : dict string :=
  [("message", "Customer created"); ("name", name c)].

(** The driver calls of [create_customer], in order, on connection [h]. *)
Definition create_calls (cs : string) (h : Connection) (c : Customer) : list Event :=
  [EvConnect cs; EvCursor h;
   EvExecute h "INSERT INTO customers (name, email) VALUES (?, ?)"
     [SqlText (name c); SqlText (email c)];
   EvCommit h].

(** The driver calls of [get_customers], in order, on connection [h]. *)
Definition list_calls (cs : string) (h : Connection) : list Event :=
  [EvConnect cs; EvCursor h;
   EvExecute h "SELECT name, email FROM customers" [];
   EvFetchall h].

(** The entry [get_customers] returns for a row. *)
Definition entry (row : Row) : dict SqlVal := [("name", col0 row); ("email", col1 row)].

(** ** Sample values *)

(** A world with the given table and server behaviour, nothing else. *)
Definition world0 (table : list Row) (f : list (option Error)) : World :=
  mkWorld ∅ table ∅ 0 f [].

Definition ada : Json :=
  JObject [("name", JString "Ada Lovelace"); ("email", JString "ada@example.com")].

(** How often [x] occurs in [l]. *)
Definition occurrences {A : Type} `{EqDecision A} (x : A) (l : list A) : nat :=
  length (filter (fun y => y = x) l).

Definition ada_customer : Customer := mkCustomer "Ada Lovelace" "ada@example.com".
Definition ada_row : Row := mkRow (SqlText "Ada Lovelace") (SqlText "ada@example.com").

(** A key of a body that is not a field of [Customer]. *)
Definition unknown_key (k : string) : bool :=
  negb (String.eqb k "name") && negb (String.eqb k "email").

(** Two errors a server may answer with. *)
Definition unreachable : Error := mkError "08001" "Unable to connect to data source".
Definition duplicate_key : Error := mkError "23000" "Violation of UNIQUE KEY constraint".

(** ** The application: requests served one after another

    [app = FastAPI()] with its two routes.  A request is one of the two
    the module declares; a reply is the response of the route it went to. *)
Inductive Request : Type :=
| POST (payload : Json)
| GET.

Inductive Reply : Type :=
| Created (r : Response (dict string))
| Listed (r : Response (list (dict SqlVal))).

Definition serve (rq : Request) (w : World) : Reply * World :=
  match rq with
  | POST payload => let (r, w') := POST_customers payload w in (Created r, w')
  | GET => let (r, w') := GET_customers w in (Listed r, w')
  end.

Fixpoint serve_all (rqs : list Request) (w : World) : list Reply * World :=
  match rqs with
  | [] => ([], w)
  | rq :: rqs' =>
      let (r, w1) := serve rq w in
      let (rs, w2) := serve_all rqs' w1 in
      (r :: rs, w2)
  end.

(** The rows a request has added to the table, read off its reply: the
    posted record when the reply is a 200 to a POST, none otherwise. *)
Definition stored (rq : Request) (r : Reply) : list Row :=
  match rq, r with
  | POST payload, Created (Http200 _) =>
      match Customer_validate payload with
      | inr c => [row_of c]
      | inl _ => []
      end
  | _, _ => []
  end.

(** The row a request asks to add: the record of a POST whose body the
    validator accepts. *)
Definition accepted (rq : Request) : list Row :=
  match rq with
  | POST payload =>
      match Customer_validate payload with
      | inr c => [row_of c]
      | inl _ => []
      end
  | GET => []
  end.

(** The driver calls made between world [w] and a later world [w']. *)
Definition calls_made (w w' : World) : list Event :=
  drop (length (trace w)) (trace w').

(** The connection a driver call is made on; [connect] is on none. *)
Definition conn_of (ev : Event) : option Connection :=
  match ev with
  | EvConnect _ => None
  | EvCursor c | EvExecute c _ _ | EvFetchall c | EvCommit c | EvClose c => Some c
  end.

(** The record a request posts: that of a POST whose body the validator
    accepts. *)
Definition posted (rq : Request) : list Customer :=
  match rq with
  | POST payload =>
      match Customer_validate payload with
      | inr c => [c]
      | inl _ => []
      end
  | GET => []
  end.

(** The driver calls main.py can make in environment [env] for requests
    that post the records [cs]: a connect with the string built from
    [env], a cursor, a fetch, a commit, and an execute of one of the two
    literal statements, the insert with the name and the email of one of
    the posted records as its two parameters, in this order, and the
    select with none.  Never a close. *)
Definition service_call (env : gmap string string) (cs : list Customer)
    (ev : Event) : Prop :=
  match ev with
  | EvConnect conn_str => conn_str = conn_string env
  | EvCursor _ | EvFetchall _ | EvCommit _ => True
  | EvExecute _ sql params =>
      (sql = "INSERT INTO customers (name, email) VALUES (?, ?)" /\
       exists c, c ∈ cs /\ params = [SqlText (name c); SqlText (email c)]) \/
      (sql = "SELECT name, email FROM customers" /\ params = [])
  | EvClose _ => False
  end.

(** The four settings of [get_db_connection], as they stand in [env]:
    server, database, user, password. *)
Definition settings (env : gmap string string) : list string :=
  [default "cms-sql-server2025.database.windows.net" (env !! "SQL_SERVER");
   default "cms-db" (env !! "SQL_DB");
   default "sqladmin" (env !! "SQL_USER");
   default "P@ssw0rd123!" (env !! "SQL_PASSWORD")].

(** No [;] in [s]. *)
Fixpoint no_semicolon (s : string) : bool :=
  match s with
  | EmptyString => true
  | String a s' => negb (Ascii.eqb a ";"%char) && no_semicolon s'
  end.

(** * Properties *)

(** ** The server's answers *)

Lemma quiet_answer (n : nat) : forall (fs : list (option Error)) (k : nat),
  quiet n fs = true -> k < n -> answer k fs = None.
Proof.
  induction n as [|n IH]; intros fs k Hq Hk; [lia|].
  cbn in Hq. destruct (hd None fs) eqn:Hhd; [discriminate|].
  destruct k as [|k]; cbn; [assumption|].
  apply IH; [assumption|lia].
Qed.

(** ** Running the driver calls *)

Lemma bind_run {A B : Type} (m : Py A) (f : A -> Py B) (w : World) :
  (m ≫= f) w =
  match m w with
  | (inl e, w') => (inl e, w')
  | (inr x, w') => f x w'
  end.
Proof. reflexivity. Qed.

Section Driver.
Variables (env : gmap string string) (tbl : list Row).
Variables (ss : gmap nat (list Row)) (fr : nat).
Variables (fs : list (option Error)) (tr : list Event).

Lemma call_run (ev : Event) :
  call ev (mkWorld env tbl ss fr fs tr) =
  (match hd None fs with Some e => inl e | None => inr tt end,
   mkWorld env tbl ss fr (tail fs) (tr ++ [ev])).
Proof. unfold call; cbn. destruct fs as [|[e|] ?]; reflexivity. Qed.

Lemma connect_run (cs : string) :
  pyodbc_connect cs (mkWorld env tbl ss fr fs tr) =
  match hd None fs with
  | Some e => (inl e, mkWorld env tbl ss fr (tail fs) (tr ++ [EvConnect cs]))
  | None => (inr fr, mkWorld env tbl (<[fr := []]> ss) (S fr) (tail fs)
                       (tr ++ [EvConnect cs]))
  end.
Proof.
  unfold pyodbc_connect. rewrite bind_run, call_run.
  destruct (hd None fs); reflexivity.
Qed.

Lemma cursor_run (c : Connection) (rows : list Row) :
  ss !! c = Some rows ->
  conn_cursor c (mkWorld env tbl ss fr fs tr) =
  (match hd None fs with Some e => inl e | None => inr (mkCursor c None) end,
   mkWorld env tbl ss fr (tail fs) (tr ++ [EvCursor c])).
Proof.
  intros Hc. unfold conn_cursor. rewrite bind_run, call_run.
  destruct (hd None fs); [reflexivity|].
  rewrite bind_run. unfold pending; cbn. rewrite Hc. reflexivity.
Qed.

Lemma insert_run (cur : Cursor) (n e : SqlVal) (rows : list Row) :
  ss !! cur_conn cur = Some rows ->
  cursor_execute cur "INSERT INTO customers (name, email) VALUES (?, ?)" [n; e]
    (mkWorld env tbl ss fr fs tr) =
  let ev := EvExecute (cur_conn cur) INSERT_SQL [n; e] in
  match hd None fs with
  | Some err => (inl err, mkWorld env tbl ss fr (tail fs) (tr ++ [ev]))
  | None =>
      (inr (mkCursor (cur_conn cur) None),
       mkWorld env tbl (<[cur_conn cur := rows ++ [mkRow n e]]> ss) fr
         (tail fs) (tr ++ [ev]))
  end.
Proof.
  intros Hc. unfold cursor_execute. rewrite bind_run, call_run.
  destruct (hd None fs); [reflexivity|].
  rewrite bind_run. unfold pending; cbn. rewrite Hc. reflexivity.
Qed.

Lemma select_run (cur : Cursor) (rows : list Row) :
  ss !! cur_conn cur = Some rows ->
  cursor_execute cur "SELECT name, email FROM customers" []
    (mkWorld env tbl ss fr fs tr) =
  let w' := mkWorld env tbl ss fr (tail fs)
              (tr ++ [EvExecute (cur_conn cur) SELECT_SQL []]) in
  match hd None fs with
  | Some err => (inl err, w')
  | None => (inr (mkCursor (cur_conn cur) (Some (tbl ++ rows))), w')
  end.
Proof.
  intros Hc. unfold cursor_execute. rewrite bind_run, call_run.
  destruct (hd None fs); [reflexivity|].
  rewrite bind_run. unfold pending; cbn. rewrite Hc. reflexivity.
Qed.

Lemma fetchall_run (c : Connection) (result pend : list Row) :
  ss !! c = Some pend ->
  cursor_fetchall (mkCursor c (Some result)) (mkWorld env tbl ss fr fs tr) =
  (match hd None fs with Some e => inl e | None => inr result end,
   mkWorld env tbl ss fr (tail fs) (tr ++ [EvFetchall c])).
Proof.
  intros Hc. unfold cursor_fetchall. cbn [cur_conn cur_rows].
  rewrite bind_run, call_run.
  destruct (hd None fs); [reflexivity|].
  rewrite bind_run. unfold pending; cbn. rewrite Hc. reflexivity.
Qed.

Lemma commit_run (c : Connection) (rows : list Row) :
  ss !! c = Some rows ->
  conn_commit c (mkWorld env tbl ss fr fs tr) =
  match hd None fs with
  | Some e => (inl e, mkWorld env tbl ss fr (tail fs) (tr ++ [EvCommit c]))
  | None => (inr tt, mkWorld env (tbl ++ rows) (<[c := []]> ss) fr (tail fs)
                       (tr ++ [EvCommit c]))
  end.
Proof.
  intros Hc. unfold conn_commit. rewrite bind_run, call_run.
  destruct (hd None fs); [reflexivity|].
  rewrite bind_run. unfold pending; cbn. rewrite Hc. reflexivity.
Qed.

Lemma close_run (c : Connection) (rows : list Row) :
  ss !! c = Some rows ->
  conn_close c (mkWorld env tbl ss fr fs tr) =
  match hd None fs with
  | Some e => (inl e, mkWorld env tbl ss fr (tail fs) (tr ++ [EvClose c]))
  | None => (inr tt, mkWorld env tbl (delete c ss) fr (tail fs)
                       (tr ++ [EvClose c]))
  end.
Proof.
  intros Hc. unfold conn_close. rewrite bind_run, call_run.
  destruct (hd None fs); [reflexivity|].
  rewrite bind_run. unfold pending; cbn. rewrite Hc. reflexivity.
Qed.
End Driver.

(** ** Running main.py *)

Lemma get_db_connection_connect (w : World) :
  get_db_connection w = pyodbc_connect (conn_string (environ w)) w.
Proof. reflexivity. Qed.

(** One more driver call: split on the server's answer to it; the raising
    branch ends the run. *)
Ltac next_call lem :=
  rewrite bind_run;
  erewrite lem by apply lookup_insert_eq;
  cbn zeta; cbn [cur_conn];
  rewrite <- ?app_assoc; cbn [app];
  let e := fresh "e" in
  destruct (hd None _) as [e|]; [reflexivity|].

(** The whole behaviour of [create_customer], by the first call to raise. *)
Lemma create_customer_run (c : Customer) env tbl ss fr fs tr :
  create_customer c (mkWorld env tbl ss fr fs tr) =
  let cs := conn_string env in
  let ev := create_calls cs fr c in
  match answer 0 fs with
  | Some e => (inl e, mkWorld env tbl ss fr (tail fs) (tr ++ take 1 ev))
  | None =>
  match answer 1 fs with
  | Some e => (inl e, mkWorld env tbl (<[fr := []]> ss) (S fr)
                        (tail (tail fs)) (tr ++ take 2 ev))
  | None =>
  match answer 2 fs with
  | Some e => (inl e, mkWorld env tbl (<[fr := []]> ss) (S fr)
                        (tail (tail (tail fs))) (tr ++ take 3 ev))
  | None =>
  match answer 3 fs with
  | Some e => (inl e, mkWorld env tbl (<[fr := [row_of c]]> ss) (S fr)
                        (tail (tail (tail (tail fs)))) (tr ++ ev))
  | None => (inr (confirmation c),
             mkWorld env (tbl ++ [row_of c]) (<[fr := []]> ss) (S fr)
               (tail (tail (tail (tail fs)))) (tr ++ ev))
  end end end end.
Proof.
  cbn zeta. unfold create_customer, create_calls; cbn [answer take].
  rewrite bind_run, get_db_connection_connect, connect_run; cbn [environ].
  destruct (hd None fs) as [e|]; [reflexivity|].
  next_call cursor_run.
  next_call insert_run.
  rewrite insert_insert_eq.
  next_call commit_run.
  rewrite insert_insert_eq. reflexivity.
Qed.

(** The whole behaviour of [get_customers], by the first call to raise. *)
Lemma get_customers_run env tbl ss fr fs tr :
  get_customers (mkWorld env tbl ss fr fs tr) =
  let cs := conn_string env in
  let ev := list_calls cs fr in
  match answer 0 fs with
  | Some e => (inl e, mkWorld env tbl ss fr (tail fs) (tr ++ take 1 ev))
  | None =>
  match answer 1 fs with
  | Some e => (inl e, mkWorld env tbl (<[fr := []]> ss) (S fr)
                        (tail (tail fs)) (tr ++ take 2 ev))
  | None =>
  match answer 2 fs with
  | Some e => (inl e, mkWorld env tbl (<[fr := []]> ss) (S fr)
                        (tail (tail (tail fs))) (tr ++ take 3 ev))
  | None =>
  match answer 3 fs with
  | Some e => (inl e, mkWorld env tbl (<[fr := []]> ss) (S fr)
                        (tail (tail (tail (tail fs)))) (tr ++ ev))
  | None => (inr (map entry tbl),
             mkWorld env tbl (<[fr := []]> ss) (S fr)
               (tail (tail (tail (tail fs)))) (tr ++ ev))
  end end end end.
Proof.
  cbn zeta. unfold get_customers, list_calls; cbn [answer take].
  rewrite bind_run, get_db_connection_connect, connect_run; cbn [environ].
  destruct (hd None fs) as [e|]; [reflexivity|].
  next_call cursor_run.
  next_call select_run.
  next_call fetchall_run.
  rewrite app_nil_r. reflexivity.
Qed.

(** ** What the handlers do, by outcome *)

Section Outcomes.
Variables (c : Customer) (w : World).

(** With a quiet server [create_customer] returns, and this is what it
    has done. *)
Lemma create_customer_quiet :
  quiet 4 (faults w) = true ->
  exists w',
    create_customer c w = (inr (confirmation c), w') /\
    customers w' = customers w ++ [row_of c] /\
    trace w' = trace w ++ create_calls (conn_string (environ w)) (fresh w) c /\
    sessions w' = <[fresh w := []]> (sessions w) /\
    environ w' = environ w.
Proof.
  intros Hq. destruct w as [env tbl ss fr fs tr]; cbn in *.
  rewrite create_customer_run; cbn zeta.
  rewrite !(quiet_answer 4 fs) by (assumption || lia).
  eexists; repeat split.
Qed.

(** It returns only with a quiet server. *)
Lemma create_customer_inr (v : dict string) (w' : World) :
  create_customer c w = (inr v, w') -> quiet 4 (faults w) = true.
Proof.
  destruct w as [env tbl ss fr fs tr]; cbn.
  rewrite create_customer_run; cbn zeta; cbn [answer].
  repeat (destruct (hd None _); [discriminate|]). reflexivity.
Qed.

(** When the [k]-th call is the first to raise, the handler stops there
    with that exception. *)
Lemma create_customer_fails (k : nat) (e : Error) :
  k < 4 -> fails_at k e (faults w) ->
  exists w',
    create_customer c w = (inl e, w') /\
    customers w' = customers w /\
    trace w' = trace w ++ take (S k) (create_calls (conn_string (environ w)) (fresh w) c) /\
    faults w' = drop (S k) (faults w).
Proof.
  intros Hk [Hq He]. destruct w as [env tbl ss fr fs tr]; cbn in *.
  rewrite create_customer_run; cbn zeta.
  destruct k as [|[|[|[|k]]]]; [| | | |lia];
    rewrite ?(quiet_answer _ fs _ Hq) by lia; rewrite He;
    (eexists; repeat split; destruct fs as [|? [|? [|? [|? ?]]]]; reflexivity).
Qed.

Lemma get_customers_quiet :
  quiet 4 (faults w) = true ->
  exists w',
    get_customers w = (inr (map entry (customers w)), w') /\
    customers w' = customers w /\
    trace w' = trace w ++ list_calls (conn_string (environ w)) (fresh w) /\
    sessions w' = <[fresh w := []]> (sessions w) /\
    environ w' = environ w.
Proof.
  intros Hq. destruct w as [env tbl ss fr fs tr]; cbn in *.
  rewrite get_customers_run; cbn zeta.
  rewrite !(quiet_answer 4 fs) by (assumption || lia).
  eexists; repeat split.
Qed.

Lemma get_customers_inr (l : list (dict SqlVal)) (w' : World) :
  get_customers w = (inr l, w') ->
  quiet 4 (faults w) = true /\ l = map entry (customers w).
Proof.
  destruct w as [env tbl ss fr fs tr]; cbn.
  rewrite get_customers_run; cbn zeta; cbn [answer].
  repeat (destruct (hd None _); [discriminate|]).
  intros [= <- _]. split; reflexivity.
Qed.

Lemma get_customers_fails (k : nat) (e : Error) :
  k < 4 -> fails_at k e (faults w) ->
  exists w',
    get_customers w = (inl e, w') /\
    customers w' = customers w /\
    trace w' = trace w ++ take (S k) (list_calls (conn_string (environ w)) (fresh w)) /\
    faults w' = drop (S k) (faults w).
Proof.
  intros Hk [Hq He]. destruct w as [env tbl ss fr fs tr]; cbn in *.
  rewrite get_customers_run; cbn zeta.
  destruct k as [|[|[|[|k]]]]; [| | | |lia];
    rewrite ?(quiet_answer _ fs _ Hq) by lia; rewrite He;
    (eexists; repeat split; destruct fs as [|? [|? [|? [|? ?]]]]; reflexivity).
Qed.
End Outcomes.

(** ** Counting entries *)

Lemma occurrences_app {A : Type} `{EqDecision A} (x : A) (l1 l2 : list A) :
  occurrences x (l1 ++ l2) = occurrences x l1 + occurrences x l2.
Proof. unfold occurrences. rewrite filter_app, length_app. reflexivity. Qed.

Lemma occurrences_zero {A : Type} `{EqDecision A} (x : A) (l : list A) :
  occurrences x l = 0 <-> x ∉ l.
Proof.
  unfold occurrences. induction l as [|y l IH].
  - split; [intros _; apply not_elem_of_nil | reflexivity].
  - rewrite filter_cons, not_elem_of_cons. destruct (decide (y = x)) as [->|Hne]; cbn.
    + split; [discriminate | intros [Hx _]; congruence].
    + rewrite IH. split; [intros Hx; split; [congruence | assumption] | intros [_ Hx]; assumption].
Qed.

Lemma entry_inj (r1 r2 : Row) : entry r1 = entry r2 -> r1 = r2.
Proof. destruct r1, r2; unfold entry; cbn. intros [= -> ->]. reflexivity. Qed.

Lemma occurrences_entry (r : Row) (rows : list Row) :
  occurrences (entry r) (map entry rows) = occurrences r rows.
Proof.
  unfold occurrences. induction rows as [|r' rows IH]; [reflexivity|].
  cbn [map]. rewrite !filter_cons.
  destruct (decide (entry r' = entry r)) as [He|He], (decide (r' = r)) as [Hr|Hr]; cbn.
  - rewrite IH. reflexivity.
  - apply entry_inj in He. contradiction.
  - subst r'. contradiction.
  - exact IH.
Qed.

(** ** Create, then list *)

Lemma POST_customers_200 (payload : Json) (c : Customer) (w w1 : World)
    (body : dict string) :
  Customer_validate payload = inr c ->
  POST_customers payload w = (Http200 body, w1) ->
  create_customer c w = (inr body, w1).
Proof.
  intros Hv. unfold POST_customers, respond. rewrite Hv.
  destruct (create_customer c w) as [[e|v] w']; intros [= <- <-]; reflexivity.
Qed.

Lemma GET_customers_200 (w w' : World) (l : list (dict SqlVal)) :
  GET_customers w = (Http200 l, w') -> get_customers w = (inr l, w').
Proof.
  unfold GET_customers, respond.
  destruct (get_customers w) as [[e|v] w'']; intros [= <- <-]; reflexivity.
Qed.

(** C1, as stated, fails: when the table already holds the pair, a
    successful POST of the same pair followed by GET lists it twice. *)
Lemma post_then_get_lists_pair_twice :
  let w := world0 [ada_row] [] in
  let pair := [("name", SqlText "Ada Lovelace"); ("email", SqlText "ada@example.com")] in
  (POST_customers ada w).1 =
    Http200 [("message", "Customer created"); ("name", "Ada Lovelace")] /\
  (GET_customers (POST_customers ada w).2).1 = Http200 [pair; pair] /\
  occurrences pair [pair; pair] = 2.
Proof. vm_compute. repeat split. Qed.

(** C1, amended: for every body the validator accepts as [(name, email)], a
    successful POST followed by a successful GET lists that pair exactly
    one more time than the table held it before the POST; so at least
    once, and exactly once when and only when the table did not hold the
    pair before. *)
Theorem post_then_get_lists_pair_once_more
    (payload : Json) (c : Customer) (w w1 w2 : World)
    (body : dict string) (l : list (dict SqlVal)) :
  Customer_validate payload = inr c ->
  POST_customers payload w = (Http200 body, w1) ->
  GET_customers w1 = (Http200 l, w2) ->
  let pair := [("name", SqlText (name c)); ("email", SqlText (email c))] in
  let row := mkRow (SqlText (name c)) (SqlText (email c)) in
  occurrences pair l = S (occurrences row (customers w)) /\
  (occurrences pair l = 1 <-> row ∉ customers w).
Proof.
  intros Hv Hpost Hget pair row.
  apply (POST_customers_200 _ _ _ _ _ Hv) in Hpost.
  apply GET_customers_200 in Hget.
  pose proof (create_customer_inr _ _ _ _ Hpost) as Hq.
  destruct (create_customer_quiet c w Hq) as (w1' & Hrun & Htbl & _).
  rewrite Hrun in Hpost. injection Hpost as _ <-.
  apply get_customers_inr in Hget as [_ ->].
  assert (Hcount : occurrences pair (map entry (customers w1')) =
                   S (occurrences row (customers w))).
  { change pair with (entry row). rewrite occurrences_entry, Htbl, occurrences_app.
    change (row_of c) with row. unfold occurrences at 2.
    rewrite filter_cons. destruct (decide (row = row)); [cbn; lia | contradiction]. }
  split; [exact Hcount|].
  rewrite Hcount, <- occurrences_zero. lia.
Qed.

Lemma post_then_get_lists_pair_once_more_witness :
  let w := world0 [] [] in
  let pair := [("name", SqlText "Ada Lovelace"); ("email", SqlText "ada@example.com")] in
  occurrences pair [pair] = S (occurrences ada_row (customers w)) /\
  (occurrences pair [pair] = 1 <-> ada_row ∉ customers w).
Proof.
  apply (post_then_get_lists_pair_once_more ada ada_customer (world0 [] [])
           (POST_customers ada (world0 [] [])).2
           (GET_customers (POST_customers ada (world0 [] [])).2).2
           [("message", "Customer created"); ("name", "Ada Lovelace")]);
    vm_compute; reflexivity.
Defined.

(** ** The validator *)

(** C2, as stated, fails: a body with an empty name and the email
    ["not-an-email"] is accepted, and the POST writes it to the table. *)
Lemma empty_name_and_malformed_email_accepted :
  let payload := JObject [("name", JString ""); ("email", JString "not-an-email")] in
  Customer_validate payload = inr (mkCustomer "" "not-an-email") /\
  (POST_customers payload (world0 [] [])).1 =
    Http200 [("message", "Customer created"); ("name", "")] /\
  customers (POST_customers payload (world0 [] [])).2 =
    [mkRow (SqlText "") (SqlText "not-an-email")].
Proof. vm_compute. repeat split. Qed.

Lemma validate_str_inr (field : string) (d : dict Json) (s : string) :
  validate_str field d = inr s <-> dict_get field d = Some (JString s).
Proof.
  unfold validate_str.
  destruct (dict_get field d) as [[| | |s'| |]|]; split; intros [= ->]; reflexivity.
Qed.

(** C2, amended: the validator accepts a body if and only if it is an
    object whose fields [name] and [email] are strings, any strings: the
    name may be empty and the email is not checked for its format.  Every
    other body (not an object, a field missing, a field that is not a
    string) is rejected with a validation error, answered as 422, and the
    world, the table included, is left as it was. *)
Theorem Customer_validate_accepts_string_fields (payload : Json) (w : World) :
  (forall n e : string,
     Customer_validate payload = inr (mkCustomer n e) <->
     exists d, payload = JObject d /\
               dict_get "name" d = Some (JString n) /\
               dict_get "email" d = Some (JString e)) /\
  (forall detail : list ErrorDetail,
     Customer_validate payload = inl detail ->
     detail <> [] /\ POST_customers payload w = (Http422 detail, w)).
Proof.
  split.
  - intros n e. split.
    + destruct payload as [| | | | |d]; try discriminate. cbn.
      destruct (validate_str "name" d) as [en|n'] eqn:Hn,
               (validate_str "email" d) as [ee|e'] eqn:He; try discriminate.
      intros [= -> ->]. exists d.
      apply validate_str_inr in Hn, He. repeat split; assumption.
    + intros (d & -> & Hn & He). cbn.
      apply validate_str_inr in Hn, He. rewrite Hn, He. reflexivity.
  - intros detail Hv. split.
    + destruct payload as [| | | | |d]; cbn in Hv; try (injection Hv as <-; discriminate).
      unfold validate_str in Hv.
      destruct (dict_get "name" d) as [[]|], (dict_get "email" d) as [[]|];
        first [ discriminate Hv | injection Hv as <-; discriminate ].
    + unfold POST_customers. rewrite Hv. reflexivity.
Qed.

Lemma Customer_validate_accepts_string_fields_witness :
  Customer_validate ada = inr (mkCustomer "Ada Lovelace" "ada@example.com") /\
  POST_customers (JObject [("email", JString "ada@example.com")]) (world0 [] []) =
    (Http422 [mkDetail ["body"; "name"] missing], world0 [] []).
Proof.
  split.
  - apply (proj1 (Customer_validate_accepts_string_fields ada (world0 [] []))).
    exists [("name", JString "Ada Lovelace"); ("email", JString "ada@example.com")].
    repeat split; reflexivity.
  - apply (proj2 (Customer_validate_accepts_string_fields
                    (JObject [("email", JString "ada@example.com")]) (world0 [] []))).
    reflexivity.
Defined.

(** ** Connections *)






Lemma calls_made_trace (w w' : World) (calls : list Event) :
  trace w' = trace w ++ calls -> calls_made w w' = calls.
Proof. intros H. unfold calls_made. rewrite H. apply drop_app_length. Qed.



(** ** Create *)

(** C4: for every validated record, with a server that lets the calls
    through, [create_customer] makes exactly one [execute], of the fixed
    text with two placeholders and the record's name and email bound as
    parameters, commits right after it, and returns the object with the
    message ["Customer created"] and the record's name; the row is then
    in the table. *)
Theorem create_customer_inserts_commits_confirms (c : Customer) (w : World) :
  quiet 4 (faults w) = true ->
  exists w',
    create_customer c w =
      (inr [("message", "Customer created"); ("name", name c)], w') /\
    trace w' = trace w ++
      [EvConnect (conn_string (environ w));
       EvCursor (fresh w);
       EvExecute (fresh w) "INSERT INTO customers (name, email) VALUES (?, ?)"
         [SqlText (name c); SqlText (email c)];
       EvCommit (fresh w)] /\
    customers w' = customers w ++ [mkRow (SqlText (name c)) (SqlText (email c))].
Proof.
  intros Hq. destruct (create_customer_quiet c w Hq) as (w' & Hrun & Htbl & Htr & _).
  exists w'. repeat split; assumption.
Qed.

Lemma create_customer_inserts_commits_confirms_witness :
  quiet 4 (faults (world0 [] [])) = true /\
  exists w',
    create_customer ada_customer (world0 [] []) =
      (inr [("message", "Customer created"); ("name", "Ada Lovelace")], w') /\
    trace w' = trace (world0 [] []) ++
      [EvConnect (conn_string ∅);
       EvCursor 0;
       EvExecute 0 "INSERT INTO customers (name, email) VALUES (?, ?)"
         [SqlText "Ada Lovelace"; SqlText "ada@example.com"];
       EvCommit 0] /\
    customers w' = customers (world0 [] []) ++ [ada_row].
Proof.
  split; [reflexivity|].
  apply (create_customer_inserts_commits_confirms ada_customer (world0 [] [])).
  reflexivity.
Defined.

(** ** List *)

Lemma lookup_map_entry (rows : list Row) : forall (i : nat) (row : Row),
  rows !! i = Some row -> map entry rows !! i = Some (entry row).
Proof.
  induction rows as [|r rows IH]; intros [|i] row; cbn; try discriminate.
  - intros [= ->]. reflexivity.
  - apply IH.
Qed.

Lemma elem_of_map_entry (x : dict SqlVal) (rows : list Row) :
  x ∈ map entry rows <-> exists row, x = entry row /\ row ∈ rows.
Proof.
  rewrite list_elem_of_In, in_map_iff.
  split; intros (row & H1 & H2); exists row.
  - apply list_elem_of_In in H2. split; [symmetry|]; assumption.
  - apply list_elem_of_In in H2. split; [symmetry|]; assumption.
Qed.

(** C5: with a server that lets the calls through, [get_customers] returns
    one [{name, email}] dict per row of the table, carrying the row's two
    values, in the order of the rows; for an empty table it returns the
    empty list, not an error. *)
Theorem get_customers_one_entry_per_row (w : World) :
  quiet 4 (faults w) = true ->
  exists l w',
    get_customers w = (inr l, w') /\
    GET_customers w = (Http200 l, w') /\
    length l = length (customers w) /\
    (forall i row, customers w !! i = Some row ->
                   l !! i = Some [("name", col0 row); ("email", col1 row)]) /\
    (customers w = [] -> l = []).
Proof.
  intros Hq. destruct (get_customers_quiet w Hq) as (w' & Hrun & _).
  exists (map entry (customers w)), w'. repeat split.
  - exact Hrun.
  - unfold GET_customers, respond. rewrite Hrun. reflexivity.
  - apply length_map.
  - apply lookup_map_entry.
  - intros ->. reflexivity.
Qed.

Lemma get_customers_one_entry_per_row_witness :
  quiet 4 (faults (world0 [ada_row] [])) = true /\
  exists l w',
    get_customers (world0 [ada_row] []) = (inr l, w') /\
    GET_customers (world0 [ada_row] []) = (Http200 l, w') /\
    length l = length (customers (world0 [ada_row] [])) /\
    (forall i row, customers (world0 [ada_row] []) !! i = Some row ->
                   l !! i = Some [("name", col0 row); ("email", col1 row)]) /\
    (customers (world0 [ada_row] []) = [] -> l = []).
Proof.
  split; [reflexivity|].
  apply (get_customers_one_entry_per_row (world0 [ada_row] [])).
  reflexivity.
Defined.

(** C6: whenever [get_customers] returns, the pairs it lists are exactly
    the rows of the table at that time: a pair is listed if and only if it
    is a row, nothing else is listed, and two worlds with the same table
    give the same list whatever else differs between them. *)
Theorem get_customers_lists_exactly_the_table
    (w w' : World) (l : list (dict SqlVal)) :
  get_customers w = (inr l, w') ->
  (forall n e, [("name", n); ("email", e)] ∈ l <-> mkRow n e ∈ customers w) /\
  (forall x, x ∈ l -> exists n e, x = [("name", n); ("email", e)]) /\
  (forall v v' l2, customers v = customers w ->
                   get_customers v = (inr l2, v') -> l2 = l).
Proof.
  intros Hrun. apply get_customers_inr in Hrun as [_ ->]. split; [|split].
  - intros n e. rewrite elem_of_map_entry. split.
    + intros (row & Heq & Hin). change [("name", n); ("email", e)] with (entry (mkRow n e)) in Heq.
      apply entry_inj in Heq. subst row. exact Hin.
    + intros Hin. exists (mkRow n e). split; [reflexivity | exact Hin].
  - intros x Hx. apply elem_of_map_entry in Hx as ([n e] & -> & _).
    exists n, e. reflexivity.
  - intros v v' l2 Htbl Hv. apply get_customers_inr in Hv as [_ ->].
    rewrite Htbl. reflexivity.
Qed.

Lemma get_customers_lists_exactly_the_table_witness :
  (forall n e, [("name", n); ("email", e)] ∈
                 [[("name", SqlText "Ada Lovelace"); ("email", SqlText "ada@example.com")]]
               <-> mkRow n e ∈ customers (world0 [ada_row] [])) /\
  (forall x, x ∈ [[("name", SqlText "Ada Lovelace"); ("email", SqlText "ada@example.com")]] ->
             exists n e, x = [("name", n); ("email", e)]) /\
  (forall v v' l2, customers v = customers (world0 [ada_row] []) ->
                   get_customers v = (inr l2, v') ->
                   l2 = [[("name", SqlText "Ada Lovelace"); ("email", SqlText "ada@example.com")]]).
Proof.
  apply (get_customers_lists_exactly_the_table (world0 [ada_row] [])
           (get_customers (world0 [ada_row] [])).2).
  vm_compute. reflexivity.
Defined.

(** ** The connection factory *)


(** With nothing set in the environment, the documented defaults. *)
Example default_connection_string :
  trace (get_db_connection (world0 [] [])).2 =
  [EvConnect "DRIVER={ODBC Driver 18 for SQL Server};SERVER=cms-sql-server2025.database.windows.net;DATABASE=cms-db;UID=sqladmin;PWD=P@ssw0rd123!;Encrypt=yes;TrustServerCertificate=no;Connection Timeout=30;"].
Proof. reflexivity. Qed.

(** An entry of the environment overrides its default. *)
Example overridden_connection_string :
  trace (get_db_connection
           (mkWorld {["SQL_SERVER" := "db.internal"]} [] ∅ 0 [] [])).2 =
  [EvConnect "DRIVER={ODBC Driver 18 for SQL Server};SERVER=db.internal;DATABASE=cms-db;UID=sqladmin;PWD=P@ssw0rd123!;Encrypt=yes;TrustServerCertificate=no;Connection Timeout=30;"].
Proof. vm_compute. reflexivity. Qed.

(** ** Errors *)

(** An unreachable server: both routes answer 500 with the driver's error,
    after the one [connect] call. *)
Example unreachable_server :
  let w := world0 [ada_row] [Some unreachable] in
  (POST_customers ada w).1 = Http500 unreachable /\
  (GET_customers w).1 = Http500 unreachable /\
  trace (POST_customers ada w).2 = [EvConnect (conn_string ∅)] /\
  trace (GET_customers w).2 = [EvConnect (conn_string ∅)].
Proof. vm_compute. repeat split. Qed.

(** C8: when a driver call raises, be it the handshake of [connect], the
    [execute] of the statement or any other of the handler's calls, the
    handler raises that very exception and the HTTP layer answers 500 with
    it; the calls made are those up to the one that raised, each once, so
    nothing is retried and nothing is swallowed.  This holds for
    [create_customer] and for [get_customers]. *)
Theorem driver_errors_propagate
    (payload : Json) (c : Customer) (w : World) (k : nat) (e : Error) :
  Customer_validate payload = inr c ->
  k < 4 -> fails_at k e (faults w) ->
  (exists w',
     create_customer c w = (inl e, w') /\
     POST_customers payload w = (Http500 e, w') /\
     trace w' = trace w ++
       take (S k) (create_calls (conn_string (environ w)) (fresh w) c) /\
     faults w' = drop (S k) (faults w)) /\
  (exists w',
     get_customers w = (inl e, w') /\
     GET_customers w = (Http500 e, w') /\
     trace w' = trace w ++
       take (S k) (list_calls (conn_string (environ w)) (fresh w)) /\
     faults w' = drop (S k) (faults w)).
Proof.
  intros Hv Hk Hf. split.
  - destruct (create_customer_fails c w k e Hk Hf) as (w' & Hrun & _ & Htr & Hfs).
    exists w'. repeat split; try assumption.
    unfold POST_customers, respond. rewrite Hv, Hrun. reflexivity.
  - destruct (get_customers_fails w k e Hk Hf) as (w' & Hrun & _ & Htr & Hfs).
    exists w'. repeat split; try assumption.
    unfold GET_customers, respond. rewrite Hrun. reflexivity.
Qed.

Lemma driver_errors_propagate_witness :
  let w := world0 [] [None; None; Some duplicate_key] in
  (exists w',
     create_customer ada_customer w = (inl duplicate_key, w') /\
     POST_customers ada w = (Http500 duplicate_key, w') /\
     trace w' = trace w ++ take 3 (create_calls (conn_string ∅) 0 ada_customer) /\
     faults w' = drop 3 (faults w)) /\
  (exists w',
     get_customers w = (inl duplicate_key, w') /\
     GET_customers w = (Http500 duplicate_key, w') /\
     trace w' = trace w ++ take 3 (list_calls (conn_string ∅) 0) /\
     faults w' = drop 3 (faults w)).
Proof.
  apply (driver_errors_propagate ada ada_customer
           (world0 [] [None; None; Some duplicate_key]) 2 duplicate_key).
  - reflexivity.
  - lia.
  - split; reflexivity.
Defined.

(** C9: when [connect], [cursor] or the [execute] of the insert raises,
    [create_customer] raises without having called [commit], and the
    table is what it was before the request: a list taken afterwards
    shows the rows of before, nothing in between. *)
Theorem create_customer_failure_leaves_table
    (c : Customer) (w : World) (k : nat) (e : Error) :
  k < 3 -> fails_at k e (faults w) ->
  exists w' calls,
    create_customer c w = (inl e, w') /\
    customers w' = customers w /\
    trace w' = trace w ++ calls /\
    (forall x, EvCommit x ∉ calls) /\
    (forall l v, get_customers w' = (inr l, v) ->
                 l = map (fun row => [("name", col0 row); ("email", col1 row)])
                       (customers w)).
Proof.
  intros Hk Hf.
  destruct (create_customer_fails c w k e ltac:(lia) Hf) as (w' & Hrun & Htbl & Htr & _).
  exists w', (take (S k) (create_calls (conn_string (environ w)) (fresh w) c)).
  split; [exact Hrun|]. split; [exact Htbl|]. split; [exact Htr|]. split.
  - intros x Hin. unfold create_calls in Hin.
    destruct k as [|[|[|k]]]; [| | |lia]; cbn [take] in Hin;
      repeat (apply elem_of_cons in Hin as [Hin|Hin]; [discriminate|]);
      apply elem_of_nil in Hin; exact Hin.
  - intros l v Hget. apply get_customers_inr in Hget as [_ ->].
    rewrite Htbl. reflexivity.
Qed.

Lemma create_customer_failure_leaves_table_witness :
  let w := world0 [ada_row] [None; None; Some duplicate_key] in
  exists w' calls,
    create_customer ada_customer w = (inl duplicate_key, w') /\
    customers w' = customers w /\
    trace w' = trace w ++ calls /\
    (forall x, EvCommit x ∉ calls) /\
    (forall l v, get_customers w' = (inr l, v) ->
                 l = map (fun row => [("name", col0 row); ("email", col1 row)])
                       (customers w)).
Proof.
  apply (create_customer_failure_leaves_table ada_customer
           (world0 [ada_row] [None; None; Some duplicate_key]) 2 duplicate_key).
  - lia.
  - split; reflexivity.
Defined.

(** ** Unknown fields *)

Lemma dict_get_known_fields {V : Type} (k : string) (d : dict V) :
  unknown_key k = false ->
  dict_get k (List.filter (fun kv => negb (unknown_key kv.1)) d) = dict_get k d.
Proof.
  intros Hk. induction d as [|[k' v] d IH]; [reflexivity|].
  cbn [List.filter fst dict_get].
  destruct (unknown_key k') eqn:Hk'; cbn [negb].
  - destruct (String.eqb_spec k k') as [->|_]; [congruence | exact IH].
  - cbn [dict_get]. destruct (String.eqb k k'); [reflexivity | exact IH].
Qed.

(** C10: a body in which [name] and [email] are strings is accepted
    whatever other fields it has and wherever they stand.  The other
    fields are ignored: the record is made of the two strings, the POST is
    not answered 422 but runs [create_customer] on that record, which with
    a quiet server gives the 200 with the confirmation, and the outcome is
    in every respect that of the same body with the unknown fields
    removed. *)
Theorem unknown_fields_ignored
    (d : list (string * Json)) (n e : string) (w : World) :
  dict_get "name" d = Some (JString n) ->
  dict_get "email" d = Some (JString e) ->
  Customer_validate (JObject d) = inr (mkCustomer n e) /\
  POST_customers (JObject d) w = respond (create_customer (mkCustomer n e)) w /\
  (forall detail, (POST_customers (JObject d) w).1 <> Http422 detail) /\
  (quiet 4 (faults w) = true ->
   (POST_customers (JObject d) w).1 =
     Http200 [("message", "Customer created"); ("name", n)]) /\
  POST_customers (JObject d) w =
    POST_customers
      (JObject (List.filter (fun kv => negb (unknown_key kv.1)) d)) w.
Proof.
  intros Hn He.
  assert (Hv : Customer_validate (JObject d) = inr (mkCustomer n e)).
  { apply (proj1 (Customer_validate_accepts_string_fields (JObject d) w)).
    exists d. repeat split; assumption. }
  assert (Hpost : POST_customers (JObject d) w =
                  respond (create_customer (mkCustomer n e)) w).
  { unfold POST_customers. rewrite Hv. reflexivity. }
  split; [exact Hv|]. split; [exact Hpost|]. split; [|split].
  - intros detail. rewrite Hpost. unfold respond.
    destruct (create_customer (mkCustomer n e) w) as [[err|v] w']; discriminate.
  - intros Hq. rewrite Hpost. unfold respond.
    destruct (create_customer_quiet (mkCustomer n e) w Hq) as (w' & -> & _).
    reflexivity.
  - unfold POST_customers at 2. cbn [Customer_validate]. unfold validate_str.
    rewrite !dict_get_known_fields by reflexivity.
    rewrite Hpost, Hn, He. reflexivity.
Qed.

Lemma unknown_fields_ignored_witness :
  let d := [("id", JNumber 7);
            ("name", JString "Ada Lovelace");
            ("tags", JArray [JString "vip"]);
            ("email", JString "ada@example.com");
            ("admin", JBool true)] in
  Customer_validate (JObject d) = inr ada_customer /\
  (POST_customers (JObject d) (world0 [] [])).1 =
    Http200 [("message", "Customer created"); ("name", "Ada Lovelace")] /\
  POST_customers (JObject d) (world0 [] []) = POST_customers ada (world0 [] []).
Proof.
  pose proof (unknown_fields_ignored
                [("id", JNumber 7);
                 ("name", JString "Ada Lovelace");
                 ("tags", JArray [JString "vip"]);
                 ("email", JString "ada@example.com");
                 ("admin", JBool true)]
                "Ada Lovelace" "ada@example.com" (world0 [] [])
                eq_refl eq_refl) as (Hv & _ & _ & H200 & Hsame).
  cbn zeta. split; [exact Hv|]. split; [exact (H200 eq_refl)|exact Hsame].
Defined.

(** * Further properties *)

(** ** Which call raised *)

Lemma first_fault (n : nat) : forall fs : list (option Error),
  quiet n fs = false -> exists k e, k < n /\ fails_at k e fs.
Proof.
  induction n as [|n IH]; intros fs Hq; [discriminate|].
  cbn in Hq. destruct (hd None fs) as [e|] eqn:Hhd.
  - exists 0, e. split; [lia|]. split; [reflexivity | exact Hhd].
  - destruct (IH _ Hq) as (k & e & Hk & Hqk & Hak).
    exists (S k), e. split; [lia|]. split; cbn; [rewrite Hhd|]; assumption.
Qed.

(** ** What a reply tells *)

(** The outcome of POST /customers/ tells what happened.  A 200 is
    answered only when the body passed validation and all four driver
    calls went through, and its body is the confirmation of the validated
    record.  A 422 is answered only when validation failed, with the
    validator's errors.  A 500 is answered only when the body had passed
    validation and a driver call raised; the exception that reached the
    HTTP layer is then the error of the first call that raised.  (That
    exception is what the layer receives; the reply sent to the client
    does not carry it.) *)
Theorem POST_customers_reply (payload : Json) (w : World) :
  match (POST_customers payload w).1 with
  | Http200 body =>
      exists c, Customer_validate payload = inr c /\
                quiet 4 (faults w) = true /\
                body = [("message", "Customer created"); ("name", name c)]
  | Http422 detail => Customer_validate payload = inl detail
  | Http500 e =>
      exists c k, Customer_validate payload = inr c /\
                  k < 4 /\ fails_at k e (faults w)
  end.
Proof.
  unfold POST_customers, respond.
  destruct (Customer_validate payload) as [detail|c] eqn:Hv; [reflexivity|].
  destruct (quiet 4 (faults w)) eqn:Hq.
  - destruct (create_customer_quiet c w Hq) as (w' & -> & _).
    exists c. repeat split.
  - destruct (first_fault 4 _ Hq) as (k & e & Hk & Hf).
    destruct (create_customer_fails c w k e Hk Hf) as (w' & -> & _).
    exists c, k. repeat split; (assumption || apply Hf).
Qed.

(** The outcome of GET /customers/ tells what happened.  A 200 is
    answered only when all four driver calls went through, and its body
    has one entry per row of the table.  A 500 is answered only when a
    driver call raised; the exception that reached the HTTP layer is then
    the error of the first call that raised (the reply sent to the client
    does not carry it).  A 422 is never answered. *)
Theorem GET_customers_reply (w : World) :
  match (GET_customers w).1 with
  | Http200 l =>
      quiet 4 (faults w) = true /\
      l = map (fun row => [("name", col0 row); ("email", col1 row)]) (customers w)
  | Http422 _ => False
  | Http500 e => exists k, k < 4 /\ fails_at k e (faults w)
  end.
Proof.
  unfold GET_customers, respond.
  destruct (quiet 4 (faults w)) eqn:Hq.
  - destruct (get_customers_quiet w Hq) as (w' & -> & _). split; reflexivity.
  - destruct (first_fault 4 _ Hq) as (k & e & Hk & Hf).
    destruct (get_customers_fails w k e Hk Hf) as (w' & -> & _).
    exists k. split; assumption.
Qed.

(** ** What a handler leaves behind *)

(** The calls, the table, the environment and the next handle after
    [create_customer], whatever its outcome: [k] of its four calls were
    made; only when all four went through is there a new row. *)
Lemma create_customer_effect (c : Customer) (w : World) :
  exists k,
    1 <= k <= 4 /\
    trace (create_customer c w).2 =
      trace w ++ take k (create_calls (conn_string (environ w)) (fresh w) c) /\
    environ (create_customer c w).2 = environ w /\
    fresh (create_customer c w).2 =
      match k with 1 => fresh w | _ => S (fresh w) end /\
    customers (create_customer c w).2 =
      customers w ++
      match (create_customer c w).1 with inr _ => [row_of c] | inl _ => [] end.
Proof.
  destruct w as [env tbl ss fr fs tr]; cbn [environ fresh trace customers].
  rewrite create_customer_run; cbn zeta.
  destruct (answer 0 fs); [exists 1|destruct (answer 1 fs); [exists 2|
    destruct (answer 2 fs); [exists 3|destruct (answer 3 fs); exists 4]]];
    cbn [fst snd environ fresh trace customers];
    rewrite ?app_nil_r; repeat split; lia.
Qed.

Lemma get_customers_effect (w : World) :
  exists k,
    1 <= k <= 4 /\
    trace (get_customers w).2 =
      trace w ++ take k (list_calls (conn_string (environ w)) (fresh w)) /\
    environ (get_customers w).2 = environ w /\
    fresh (get_customers w).2 =
      match k with 1 => fresh w | _ => S (fresh w) end /\
    customers (get_customers w).2 = customers w.
Proof.
  destruct w as [env tbl ss fr fs tr]; cbn [environ fresh trace customers].
  rewrite get_customers_run; cbn zeta.
  destruct (answer 0 fs); [exists 1|destruct (answer 1 fs); [exists 2|
    destruct (answer 2 fs); [exists 3|destruct (answer 3 fs); exists 4]]];
    cbn [fst snd environ fresh trace customers];
    repeat split; lia.
Qed.

(** Listing reads and nothing more: on every path, normal or
    exceptional, [get_customers] leaves the table as it found it, and
    among the driver calls it made there is no commit and no execute of
    anything but the select; so a second list right after a first returns
    the same entries. *)
Theorem get_customers_only_reads (w : World) :
  customers (get_customers w).2 = customers w /\
  (forall ev, ev ∈ calls_made w (get_customers w).2 ->
     match ev with
     | EvCommit _ | EvClose _ => False
     | EvExecute _ sql params =>
         sql = "SELECT name, email FROM customers" /\ params = []
     | _ => True
     end) /\
  (forall l1 w1 l2 w2,
     get_customers w = (inr l1, w1) ->
     get_customers w1 = (inr l2, w2) -> l2 = l1).
Proof.
  destruct (get_customers_effect w) as (k & _ & Htr & _ & _ & Htbl).
  split; [exact Htbl|]. split.
  - intros ev. rewrite (calls_made_trace _ _ _ Htr). intros Hin.
    apply (subseteq_take k) in Hin. unfold list_calls in Hin.
    repeat (apply elem_of_cons in Hin as [->|Hin]; [cbn; auto|]).
    apply elem_of_nil in Hin. destruct Hin.
  - intros l1 w1 l2 w2 H1 H2.
    pose proof Htbl as Htbl1. rewrite H1 in Htbl1. cbn in Htbl1.
    apply get_customers_inr in H1 as [_ ->].
    apply get_customers_inr in H2 as [_ ->].
    rewrite Htbl1. reflexivity.
Qed.

Lemma get_customers_only_reads_witness :
  let w := world0 [ada_row] [] in
  let l := [[("name", SqlText "Ada Lovelace"); ("email", SqlText "ada@example.com")]] in
  get_customers w = (inr l, (get_customers w).2) /\
  get_customers (get_customers w).2 =
    (inr l, (get_customers (get_customers w).2).2) /\
  l = l.
Proof.
  cbn zeta. split; [vm_compute; reflexivity|]. split; [vm_compute; reflexivity|].
  apply (proj2 (proj2 (get_customers_only_reads (world0 [ada_row] [])))
           _ (get_customers (world0 [ada_row] [])).2
           _ (get_customers (get_customers (world0 [ada_row] [])).2).2);
    vm_compute; reflexivity.
Defined.

(** ** Requests one after another *)

Lemma create_calls_service (env : gmap string string) (h : Connection) (c : Customer) :
  Forall (service_call env [c]) (create_calls (conn_string env) h c).
Proof.
  unfold create_calls. repeat apply Forall_cons_2; cbn; auto.
  left. split; [reflexivity|]. exists c. split; [apply list_elem_of_here | reflexivity].
Qed.

Lemma service_call_mono (env : gmap string string) (cs cs' : list Customer)
    (ev : Event) :
  cs ⊆ cs' -> service_call env cs ev -> service_call env cs' ev.
Proof.
  intros Hsub. destruct ev; cbn; auto.
  intros [(Hsql & cust & Hc & Hp)|H]; [left|right; exact H].
  split; [exact Hsql|]. exists cust. split; [apply Hsub, Hc | exact Hp].
Qed.

Lemma list_calls_service (env : gmap string string) (h : Connection) :
  Forall (service_call env []) (list_calls (conn_string env) h).
Proof.
  unfold list_calls. repeat apply Forall_cons_2; cbn; auto.
Qed.

(** The first [k] of a handler's four calls: the connect, then calls on
    the connection [h]. *)
Lemma calls_shape (cs : string) (h : Connection) (e1 e2 e3 : Event) (k : nat) :
  conn_of e1 = Some h -> conn_of e2 = Some h -> conn_of e3 = Some h ->
  1 <= k <= 4 ->
  exists rest,
    take k [EvConnect cs; e1; e2; e3] = EvConnect cs :: rest /\
    length rest <= 3 /\
    Forall (fun ev => conn_of ev = Some h) rest /\
    (rest <> [] -> k <> 1).
Proof.
  intros H1 H2 H3 Hk.
  destruct k as [|[|[|[|[|k]]]]]; try lia; cbn [take];
    eexists; (split; [reflexivity|]); cbn [length];
    (split; [lia|]); (split; [repeat apply Forall_cons_2; auto|]);
    intros Hne; [destruct (Hne eq_refl) | lia | lia | lia].
Qed.

(** What one request leaves behind. *)
Lemma serve_effect (rq : Request) (w : World) :
  exists calls,
    trace (serve rq w).2 = trace w ++ calls /\
    environ (serve rq w).2 = environ w /\
    customers (serve rq w).2 = customers w ++ stored rq (serve rq w).1 /\
    Forall (service_call (environ w) (posted rq)) calls /\
    fresh w <= fresh (serve rq w).2 /\
    (calls = [] /\ (exists payload detail,
                      rq = POST payload /\ Customer_validate payload = inl detail) \/
     exists cs rest,
       calls = EvConnect cs :: rest /\ length rest <= 3 /\
       Forall (fun ev => conn_of ev = Some (fresh w)) rest /\
       (rest <> [] -> fresh (serve rq w).2 = S (fresh w))).
Proof.
  destruct rq as [payload|]; cbn [serve].
  - unfold POST_customers.
    destruct (Customer_validate payload) as [detail|c] eqn:Hv.
    + exists []. cbn. rewrite !app_nil_r. repeat split; [constructor | lia |].
      left. split; [reflexivity|]. exists payload, detail. split; [reflexivity | exact Hv].
    + destruct (create_customer_effect c w) as (k & Hk & Htr & Henv & Hfr & Htbl).
      destruct (calls_shape (conn_string (environ w)) (fresh w)
                  (EvCursor (fresh w))
                  (EvExecute (fresh w) "INSERT INTO customers (name, email) VALUES (?, ?)"
                     [SqlText (name c); SqlText (email c)])
                  (EvCommit (fresh w)) k eq_refl eq_refl eq_refl Hk)
        as (rest & Htake & Hlen & Hall & Hne).
      exists (take k (create_calls (conn_string (environ w)) (fresh w) c)).
      assert (Hst : stored (POST payload) (Created (respond (create_customer c) w).1) =
                    match (create_customer c w).1 with inr _ => [row_of c] | inl _ => [] end).
      { unfold respond. cbn [stored]. rewrite Hv.
        destruct (create_customer c w) as [[e|v] w']; reflexivity. }
      assert (Hw : (let (r, w') := respond (create_customer c) w in (Created r, w')) =
                   (Created (respond (create_customer c) w).1, (create_customer c w).2)).
      { unfold respond. destruct (create_customer c w) as [[e|v] w']; reflexivity. }
      rewrite Hw. cbn [fst snd]. rewrite Hst.
      split; [exact Htr|]. split; [exact Henv|]. split; [exact Htbl|].
      split; [cbn [posted]; rewrite Hv; apply Forall_take, create_calls_service|].
      split; [rewrite Hfr; destruct k as [|[|?]]; lia|].
      right. exists (conn_string (environ w)), rest.
      split; [exact Htake|]. split; [exact Hlen|]. split; [exact Hall|].
      intros Hr. specialize (Hne Hr). rewrite Hfr.
      destruct k as [|[|?]]; [lia | contradiction | reflexivity].
  - destruct (get_customers_effect w) as (k & Hk & Htr & Henv & Hfr & Htbl).
    destruct (calls_shape (conn_string (environ w)) (fresh w)
                (EvCursor (fresh w))
                (EvExecute (fresh w) "SELECT name, email FROM customers" [])
                (EvFetchall (fresh w)) k eq_refl eq_refl eq_refl Hk)
      as (rest & Htake & Hlen & Hall & Hne).
    exists (take k (list_calls (conn_string (environ w)) (fresh w))).
    assert (Hw : (let (r, w') := GET_customers w in (Listed r, w')) =
                 (Listed (GET_customers w).1, (get_customers w).2)).
    { unfold GET_customers, respond. destruct (get_customers w) as [[e|v] w']; reflexivity. }
    rewrite Hw. cbn [fst snd stored]. rewrite app_nil_r.
    split; [exact Htr|]. split; [exact Henv|]. split; [exact Htbl|].
    split; [apply Forall_take, list_calls_service|].
    split; [rewrite Hfr; destruct k as [|[|?]]; lia|].
    right. exists (conn_string (environ w)), rest.
    split; [exact Htake|]. split; [exact Hlen|]. split; [exact Hall|].
    intros Hr. specialize (Hne Hr). rewrite Hfr.
    destruct k as [|[|?]]; [lia | contradiction | reflexivity].
Qed.

Lemma serve_all_cons (rq : Request) (rqs : list Request) (w : World) :
  serve_all (rq :: rqs) w =
  ((serve rq w).1 :: (serve_all rqs (serve rq w).2).1,
   (serve_all rqs (serve rq w).2).2).
Proof.
  cbn [serve_all]. destruct (serve rq w) as [r w1]. cbn [fst snd].
  destruct (serve_all rqs w1) as [rs w2]. reflexivity.
Qed.

(** No write is lost and none is invented: after any requests, served
    one after another against any server behaviour, there is one reply per
    request and the table is the table of before followed by the records
    of exactly those POSTs that were answered 200, in the order of the
    requests.  Rows are never changed or removed. *)
Theorem serve_all_table (rqs : list Request) (w : World) :
  length (serve_all rqs w).1 = length rqs /\
  customers (serve_all rqs w).2 =
    customers w ++ concat (zip_with stored rqs (serve_all rqs w).1).
Proof.
  revert w. induction rqs as [|rq rqs IH]; intros w.
  - cbn. rewrite app_nil_r. split; reflexivity.
  - rewrite serve_all_cons. cbn [fst snd length zip_with concat].
    destruct (IH (serve rq w).2) as [Hlen Htbl].
    destruct (serve_effect rq w) as (calls & _ & _ & Hstep & _).
    split; [rewrite Hlen; reflexivity|].
    rewrite Htbl, Hstep, <- app_assoc. reflexivity.
Qed.

(** The service talks to the database in a fixed vocabulary: whatever the
    requests and their bodies, every driver call made while serving them
    is a connect with the string built from the environment, which the
    service never changes, a cursor, a fetch, a commit, or an execute of
    one of the two literal statements: the select with no parameter, or
    the insert with two parameters that are the name and the email, in
    this order, of the record of one of the POSTs served.  Never a close. *)
Theorem serve_all_calls (rqs : list Request) (w : World) :
  environ (serve_all rqs w).2 = environ w /\
  exists calls,
    trace (serve_all rqs w).2 = trace w ++ calls /\
    Forall (service_call (environ w) (concat (map posted rqs))) calls.
Proof.
  revert w. induction rqs as [|rq rqs IH]; intros w.
  - cbn. split; [reflexivity|]. exists []. rewrite app_nil_r. split; [reflexivity | constructor].
  - rewrite serve_all_cons. cbn [fst snd map concat].
    destruct (IH (serve rq w).2) as (Henv & calls2 & Htr2 & Hall2).
    destruct (serve_effect rq w) as (calls1 & Htr1 & Henv1 & _ & Hall1 & _).
    split; [rewrite Henv; exact Henv1|].
    exists (calls1 ++ calls2). split.
    + rewrite Htr2, Htr1, <- app_assoc. reflexivity.
    + apply Forall_app. split.
      * eapply Forall_impl; [exact Hall1|]. intros ev.
        apply service_call_mono. intros c Hc. apply elem_of_app. left. exact Hc.
      * rewrite Henv1 in Hall2. eapply Forall_impl; [exact Hall2|]. intros ev.
        apply service_call_mono. intros c Hc. apply elem_of_app. right. exact Hc.
Qed.

(** The parameters of an insert are those of the record posted, not any
    two texts: with the name and the email swapped the call is not one the
    service makes for that record. *)
Example swapped_parameters_are_no_service_call :
  ~ service_call ∅ [ada_customer]
      (EvExecute 0 "INSERT INTO customers (name, email) VALUES (?, ?)"
         [SqlText "ada@example.com"; SqlText "Ada Lovelace"]).
Proof.
  cbn. intros [(_ & c & Hc & Hp)|[H _]]; [|discriminate H].
  apply list_elem_of_singleton in Hc. subst c. discriminate Hp.
Qed.

(** Each request has its own connection: the driver calls of a request,
    if it makes any, start with one connect, at most three calls follow,
    and these are all on the connection that connect opened.  Only a POST
    whose body fails validation makes no call at all. *)
Theorem request_connects_once (rq : Request) (w : World) :
  (calls_made w (serve rq w).2 = [] /\
   exists payload detail,
     rq = POST payload /\ Customer_validate payload = inl detail) \/
  (exists cs rest,
     calls_made w (serve rq w).2 = EvConnect cs :: rest /\
     length rest <= 3 /\
     Forall (fun ev => conn_of ev = Some (fresh w)) rest).
Proof.
  destruct (serve_effect rq w) as (calls & Htr & _ & _ & _ & _ & Hshape).
  rewrite (calls_made_trace _ _ _ Htr).
  destruct Hshape as [[-> Hrej]|(cs & rest & -> & Hlen & Hall & _)].
  - left. split; [reflexivity | exact Hrej].
  - right. exists cs, rest. repeat split; assumption.
Qed.

Lemma serve_all_fresh (rqs : list Request) : forall w : World,
  fresh w <= fresh (serve_all rqs w).2.
Proof.
  induction rqs as [|rq rqs IH]; intros w; [cbn; lia|].
  rewrite serve_all_cons. cbn [snd].
  destruct (serve_effect rq w) as (calls & _ & _ & _ & _ & Hfr & _).
  specialize (IH (serve rq w).2). lia.
Qed.

Lemma serve_connection (rq : Request) (w : World) (ev : Event) (h : Connection) :
  ev ∈ calls_made w (serve rq w).2 -> conn_of ev = Some h ->
  h = fresh w /\ fresh (serve rq w).2 = S (fresh w).
Proof.
  destruct (serve_effect rq w) as (calls & Htr & _ & _ & _ & _ & Hshape).
  rewrite (calls_made_trace _ _ _ Htr).
  destruct Hshape as [[-> _]|(cs & rest & -> & _ & Hall & Hfr)].
  - intros Hin. apply elem_of_nil in Hin. destruct Hin.
  - intros Hin Hconn. apply elem_of_cons in Hin as [->|Hin]; [discriminate|].
    rewrite Forall_forall in Hall. specialize (Hall _ Hin).
    split; [congruence|]. apply Hfr. intros ->. apply elem_of_nil in Hin. exact Hin.
Qed.

(** No connection is used by two requests: a driver call of a request and
    a driver call of any later request are on different connections. *)
Theorem connections_not_reused
    (rq1 rq2 : Request) (between : list Request) (w : World)
    (ev1 ev2 : Event) (h1 h2 : Connection) :
  let w1 := (serve rq1 w).2 in
  let w2 := (serve_all between w1).2 in
  let w3 := (serve rq2 w2).2 in
  ev1 ∈ calls_made w w1 -> conn_of ev1 = Some h1 ->
  ev2 ∈ calls_made w2 w3 -> conn_of ev2 = Some h2 ->
  h1 < h2.
Proof.
  cbn zeta. intros Hin1 Hc1 Hin2 Hc2.
  destruct (serve_connection _ _ _ _ Hin1 Hc1) as [-> Hfr1].
  destruct (serve_connection _ _ _ _ Hin2 Hc2) as [-> _].
  pose proof (serve_all_fresh between (serve rq1 w).2). lia.
Qed.

Lemma connections_not_reused_witness :
  let w := world0 [] [] in
  let w1 := (serve (POST ada) w).2 in
  let w2 := (serve_all [GET] w1).2 in
  let w3 := (serve GET w2).2 in
  EvCommit 0 ∈ calls_made w w1 /\ EvFetchall 2 ∈ calls_made w2 w3 /\ 0 < 2.
Proof.
  cbn zeta.
  assert (H1 : EvCommit 0 ∈ calls_made (world0 [] []) (serve (POST ada) (world0 [] [])).2)
    by (apply (bool_decide_unpack _); vm_compute; exact I).
  assert (H2 : EvFetchall 2 ∈
               calls_made (serve_all [GET] (serve (POST ada) (world0 [] [])).2).2
                 (serve GET (serve_all [GET] (serve (POST ada) (world0 [] [])).2).2).2)
    by (apply (bool_decide_unpack _); vm_compute; exact I).
  split; [exact H1|]. split; [exact H2|].
  exact (connections_not_reused (POST ada) GET [GET] (world0 [] [])
           (EvCommit 0) (EvFetchall 2) 0 2 H1 eq_refl H2 eq_refl).
Defined.

(** ** The connection string and the settings *)

Lemma append_cancel_l (p x y : string) : p +:+ x = p +:+ y -> x = y.
Proof.
  induction p as [|a p IH]; intros H; [exact H|].
  injection H as H. exact (IH H).
Qed.

(** A value without [;] ends at the first [;] of the string. *)
Lemma append_semicolon_inj (a : string) : forall (b r r' : string),
  no_semicolon a = true -> no_semicolon b = true ->
  a +:+ ";" +:+ r = b +:+ ";" +:+ r' -> a = b /\ r = r'.
Proof.
  induction a as [|c a IH]; intros [|c' b] r r' Ha Hb H.
  - injection H as H. split; [reflexivity | exact H].
  - injection H as Hc _. subst c'. discriminate Hb.
  - injection H as Hc _. subst c. discriminate Ha.
  - injection H as Hc H. subst c'. cbn [no_semicolon] in Ha, Hb.
    apply andb_true_iff in Ha as [_ Ha]. apply andb_true_iff in Hb as [_ Hb].
    destruct (IH _ _ _ Ha Hb H) as [-> ->]. split; reflexivity.
Qed.

Lemma conn_string_inj (env1 env2 : gmap string string) :
  forallb no_semicolon (settings env1) = true ->
  forallb no_semicolon (settings env2) = true ->
  conn_string env1 = conn_string env2 ->
  settings env1 = settings env2.
Proof.
  unfold settings, conn_string; cbn [forallb].
  set (s1 := default _ (env1 !! "SQL_SERVER")). set (d1 := default _ (env1 !! "SQL_DB")).
  set (u1 := default _ (env1 !! "SQL_USER")). set (p1 := default _ (env1 !! "SQL_PASSWORD")).
  set (s2 := default _ (env2 !! "SQL_SERVER")). set (d2 := default _ (env2 !! "SQL_DB")).
  set (u2 := default _ (env2 !! "SQL_USER")). set (p2 := default _ (env2 !! "SQL_PASSWORD")).
  rewrite !andb_true_iff.
  intros (Hs1 & Hd1 & Hu1 & Hp1 & _) (Hs2 & Hd2 & Hu2 & Hp2 & _) H.
  do 2 apply append_cancel_l in H.
  apply (append_semicolon_inj _ _ _ _ Hs1 Hs2) in H as [-> H].
  apply append_cancel_l in H.
  apply (append_semicolon_inj _ _ _ _ Hd1 Hd2) in H as [-> H].
  apply append_cancel_l in H.
  apply (append_semicolon_inj _ _ _ _ Hu1 Hu2) in H as [-> H].
  apply append_cancel_l in H.
  apply (append_semicolon_inj _ _ _ _ Hp1 Hp2) in H as [-> _].
  reflexivity.
Qed.

Lemma get_db_connection_calls (w : World) :
  calls_made w (get_db_connection w).2 = [EvConnect (conn_string (environ w))].
Proof.
  apply calls_made_trace. destruct w as [env tbl ss fr fs tr].
  rewrite get_db_connection_connect, connect_run.
  destruct (hd None fs); reflexivity.
Qed.

(** The connection string carries the settings faithfully as long as none
    of them contains a [;]: when server, database, user and password are
    free of [;] in two environments and [get_db_connection] makes the same
    driver call in both, the four settings are the same in both.  The
    values are put between the [;] separators as they are, unquoted. *)
Theorem connection_string_determines_settings (w1 w2 : World) :
  forallb no_semicolon (settings (environ w1)) = true ->
  forallb no_semicolon (settings (environ w2)) = true ->
  calls_made w1 (get_db_connection w1).2 = calls_made w2 (get_db_connection w2).2 ->
  settings (environ w1) = settings (environ w2).
Proof.
  intros H1 H2. rewrite !get_db_connection_calls. intros H.
  apply (conn_string_inj _ _ H1 H2). congruence.
Qed.

Lemma connection_string_determines_settings_witness :
  let w1 := world0 [] [] in
  let w2 := mkWorld {["SQL_DB" := "cms-db"]} [ada_row] ∅ 3 [Some unreachable] [] in
  settings (environ w1) = settings (environ w2).
Proof.
  apply (connection_string_determines_settings (world0 [] [])
           (mkWorld {["SQL_DB" := "cms-db"]} [ada_row] ∅ 3 [Some unreachable] []));
    vm_compute; reflexivity.
Defined.

(** With a [;] inside a value the string no longer tells the settings
    apart. *)
Example semicolon_blurs_settings :
  let env1 : gmap string string :=
    {["SQL_SERVER" := "a;DATABASE=b"; "SQL_DB" := "c"]} in
  let env2 : gmap string string :=
    {["SQL_SERVER" := "a"; "SQL_DB" := "b;DATABASE=c"]} in
  conn_string env1 = conn_string env2 /\ settings env1 <> settings env2.
Proof. cbn zeta. split; [vm_compute; reflexivity | vm_compute; discriminate]. Qed.

(** ** A server that never raises *)

Lemma serve_never_raising (rq : Request) (w : World) :
  faults w = [] ->
  faults (serve rq w).2 = [] /\
  customers (serve rq w).2 = customers w ++ accepted rq.
Proof.
  intros Hf. destruct w as [env tbl ss fr fs tr]. cbn in Hf. subst fs.
  destruct rq as [payload|]; cbn [serve accepted].
  - unfold POST_customers, respond.
    destruct (Customer_validate payload) as [detail|c].
    + cbn. rewrite app_nil_r. split; reflexivity.
    + rewrite create_customer_run. split; reflexivity.
  - unfold GET_customers, respond. rewrite get_customers_run. cbn.
    rewrite app_nil_r. split; reflexivity.
Qed.

(** With a server that never raises, everything posted is listed: after
    any requests served one after another, the table is the table of
    before followed by the record of every POST whose body passed
    validation, in the order of the requests, and a list taken then is
    answered 200 with one entry for each of these rows. *)
Theorem posted_records_are_listed (rqs : list Request) (w : World) :
  faults w = [] ->
  customers (serve_all rqs w).2 = customers w ++ concat (map accepted rqs) /\
  (GET_customers (serve_all rqs w).2).1 =
    Http200 (map (fun row => [("name", col0 row); ("email", col1 row)])
               (customers w ++ concat (map accepted rqs))).
Proof.
  intros Hf.
  assert (H : faults (serve_all rqs w).2 = [] /\
              customers (serve_all rqs w).2 = customers w ++ concat (map accepted rqs)).
  { revert w Hf. induction rqs as [|rq rqs IH]; intros w Hf.
    - cbn. rewrite app_nil_r. split; [exact Hf | reflexivity].
    - rewrite serve_all_cons. cbn [snd map concat].
      destruct (serve_never_raising rq w Hf) as [Hf1 Ht1].
      destruct (IH _ Hf1) as [Hf2 Ht2].
      split; [exact Hf2|]. rewrite Ht2, Ht1, <- app_assoc. reflexivity. }
  destruct H as [Hf' Htbl]. split; [exact Htbl|].
  assert (Hq : quiet 4 (faults (serve_all rqs w).2) = true) by (rewrite Hf'; reflexivity).
  destruct (get_customers_quiet _ Hq) as (w' & Hrun & _).
  unfold GET_customers, respond. rewrite Hrun, Htbl. reflexivity.
Qed.

Lemma posted_records_are_listed_witness :
  let rqs := [POST ada; GET; POST (JObject [("name", JString "Bob")]); POST ada] in
  customers (serve_all rqs (world0 [] [])).2 = [ada_row; ada_row] /\
  (GET_customers (serve_all rqs (world0 [] [])).2).1 =
    Http200 [[("name", SqlText "Ada Lovelace"); ("email", SqlText "ada@example.com")];
             [("name", SqlText "Ada Lovelace"); ("email", SqlText "ada@example.com")]].
Proof.
  apply (posted_records_are_listed
           [POST ada; GET; POST (JObject [("name", JString "Bob")]); POST ada]
           (world0 [] [])).
  reflexivity.
Defined.
